(** * xmake: the [os.chdir] binding ([core/src/xmake/os/chdir.c])

    [xm_os_chdir] is the C function behind the Lua call [os.chdir(path)]:
    it reads its first argument as a string, asks the platform layer to
    make that path the current directory of the process, and hands one
    boolean back to the script.

    The development embeds the function over an explicit Lua stack and an
    explicit process state.  The Lua API calls it uses and the platform
    primitive are not defined in [chdir.c]; they are embedded below from
    their contracts, and the platform primitive is kept abstract wherever a
    statement does not depend on what the file system looks like. *)

From stdpp Require Import base numbers strings list gmap pretty.

Local Open Scope Z_scope.

(** ** Configuration the binding is compiled against *)

(** [luaconf.h]: the numeric type of the interpreter ([LUA_NUMBER]) and the
    way a number is printed ([lua_number2str], a [sprintf] with
    [LUA_NUMBER_FMT]).  Both are build-time choices, so they are left
    abstract. *)
Class LuaConf := {
  lua_Number : Type;
  lua_number2str : lua_Number → string
}.

(** The platform layer: [World] is whatever the operating system keeps for
    the process, [tb_directory_current_set] the primitive that tries to
    change the current directory and reports whether it did. *)
Class Platform := {
  World : Type;
  tb_directory_current_set : string → World → bool * World
}.

(** ** C strings *)

(** A [tb_char_t const*] is read up to its first NUL byte.  A Lua string may
    carry NUL bytes in the middle, the callee only ever sees the prefix. *)
Fixpoint c_str (s : string) : string :=
  match s with
  | EmptyString => EmptyString
  | String c s' =>
      if Ascii.eqb c Ascii.zero then EmptyString else String c (c_str s')
  end.

(** No NUL byte anywhere in [s]. *)
Fixpoint nul_free (s : string) : bool :=
  match s with
  | EmptyString => true
  | String c s' => negb (Ascii.eqb c Ascii.zero) && nul_free s'
  end.

(** ** Lua values and the Lua stack *)

(** The type tags of [lua.h]. *)
Inductive lua_type :=
| LUA_TNONE
| LUA_TNIL
| LUA_TBOOLEAN
| LUA_TLIGHTUSERDATA
| LUA_TNUMBER
| LUA_TSTRING
| LUA_TTABLE
| LUA_TFUNCTION
| LUA_TUSERDATA
| LUA_TTHREAD.

(** What [luaL_checkstring] raises: "bad argument #narg (<expected>
    expected, got <got>)". *)
Inductive lua_Error :=
| ArgTypeError (narg : Z) (expected got : lua_type).

Section Binding.
Context `{Conf : LuaConf} `{Plat : Platform}.

(** A tagged Lua value.  Collectable objects other than strings are
    represented by a reference, their contents play no role here. *)
Inductive TValue :=
| LNil
| LBoolean (b : bool)
| LLightUserdata (p : Z)
| LNumber (n : lua_Number)
| LString (s : string)
| LTable (ref : Z)
| LFunction (ref : Z)
| LUserdata (ref : Z)
| LThread (ref : Z).

(** The part of a [lua_State] a C function works on: the slots of its own
    call frame, slot 1 (the first argument) first, the top last. *)
Record lua_State := { stack : list TValue }.

(** Stack slot at a positive index; [None] is the "no value" of an index
    above the top.  (Negative and pseudo indices are not used by
    [chdir.c].) *)
Definition index2adr (L : lua_State) (idx : Z) : option TValue :=
  if decide (0 < idx) then stack L !! Z.to_nat (idx - 1) else None.

Definition lua_type_of (L : lua_State) (idx : Z) : lua_type :=
  match index2adr L idx with
  | None => LUA_TNONE
  | Some LNil => LUA_TNIL
  | Some (LBoolean _) => LUA_TBOOLEAN
  | Some (LLightUserdata _) => LUA_TLIGHTUSERDATA
  | Some (LNumber _) => LUA_TNUMBER
  | Some (LString _) => LUA_TSTRING
  | Some (LTable _) => LUA_TTABLE
  | Some (LFunction _) => LUA_TFUNCTION
  | Some (LUserdata _) => LUA_TUSERDATA
  | Some (LThread _) => LUA_TTHREAD
  end.

(** Overwrite an existing slot. *)
Definition set_slot (L : lua_State) (idx : Z) (v : TValue) : lua_State :=
  {| stack := <[Z.to_nat (idx - 1) := v]> (stack L) |}.

(** Modelled from the spec: the argument extraction of the binding layer
    ([lua_tolstring] and [luaL_checkstring] belong to the Lua library, not
    to [chdir.c]).  The specification has that layer marshal the caller's
    argument into the string passed on, and hold the operation back when
    no text value was supplied; what it does value by value is taken from
    the Lua reference manual.

    [lua_tolstring]: a string is returned as it is; a number is converted
    to a string, and the slot itself is overwritten with that string;
    anything else gives a null pointer.  The pointer returned is read by
    the caller as a C string. *)
Definition lua_tolstring (L : lua_State) (idx : Z)
  : option string * lua_State :=
  match index2adr L idx with
  | Some (LString s) => (Some (c_str s), L)
  | Some (LNumber n) =>
      let s := lua_number2str n in
      (Some (c_str s), set_slot L idx (LString s))
  | _ => (None, L)
  end.

(** A Lua API call either comes back with a value or leaves the C function
    through [lua_error] (a non-local exit). *)
Inductive lua_result (A : Type) :=
| LuaOk (a : A) (L : lua_State)
| LuaThrow (e : lua_Error) (L : lua_State).
Global Arguments LuaOk {A} a L.
Global Arguments LuaThrow {A} e L.

(** Modelled from the spec: the same layer's [luaL_checkstring(L, narg)],
    that is [luaL_checklstring(L, narg, NULL)]: [lua_tolstring], and an
    argument error when that gives a null pointer. *)
Definition luaL_checkstring (L : lua_State) (narg : Z)
  : lua_result (option string) :=
  match lua_tolstring L narg with
  | (Some s, L') => LuaOk (Some s) L'
  | (None, L') =>
      LuaThrow (ArgTypeError narg LUA_TSTRING (lua_type_of L narg)) L'
  end.

(** Modelled from the spec: [lua_pushboolean], which marshals the boolean
    back into the caller's value space: one more slot on top. *)
Definition lua_pushboolean (L : lua_State) (b : bool) : lua_State :=
  {| stack := stack L ++ [LBoolean b] |}.

(** ** The process *)

(** The state of the operating system for this process, together with the
    record of the requests made to [tb_directory_current_set] so far
    (oldest first).  The record is what statements of the form "the
    primitive is not called" are about; the code never reads it. *)
Record process := {
  os_world : World;
  os_calls : list string
}.

(** One call of the primitive, recorded. *)
Definition call_directory_current_set (path : string) (pr : process)
  : bool * process :=
  let r := tb_directory_current_set path (os_world pr) in
  (r.1, {| os_world := r.2; os_calls := os_calls pr ++ [path] |}).

(** ** [xm_os_chdir] *)

(** How a call of the C function ends: it returns the number of results it
    left on top of the stack, or a Lua error unwinds it. *)
Inductive outcome :=
| Returned (nresults : Z) (lua : option lua_State) (pr : process)
| Raised (e : lua_Error) (lua : lua_State) (pr : process).

(** <<
    tb_int_t xm_os_chdir(lua_State* lua)
    {
        tb_assert_and_check_return_val(lua, 0);
        tb_char_t const* path = luaL_checkstring(lua, 1);
        tb_check_return_val(path, 0);
        lua_pushboolean(lua, tb_directory_current_set(path));
        return 1;
    }
    >>
    [lua] is a pointer, [None] is the null pointer.  The two [check]
    macros return their second argument when the first is null (the
    assertion half of the first macro exists in debug builds only and is
    not part of the embedding). *)
Definition xm_os_chdir (lua : option lua_State) (pr : process) : outcome :=
  match lua with
  | None => Returned 0 None pr
  | Some L =>
      match luaL_checkstring L 1 with
      | LuaThrow e L' => Raised e L' pr
      | LuaOk None L' => Returned 0 (Some L') pr
      | LuaOk (Some path) L' =>
          let r := call_directory_current_set path pr in
          Returned 1 (Some (lua_pushboolean L' r.1)) r.2
      end
  end.

(** ** What the caller observes *)

(** The values the script receives: the top [nresults] slots. *)
Definition results (o : outcome) : option (list TValue) :=
  match o with
  | Returned n (Some L) _ =>
      Some (drop (length (stack L) - Z.to_nat n)%nat (stack L))
  | Returned _ None _ => Some []
  | Raised _ _ _ => None
  end.

Definition process_after (o : outcome) : process :=
  match o with
  | Returned _ _ pr => pr
  | Raised _ _ pr => pr
  end.

(** The requests a call that started in [pr] made to the primitive: what
    it added to the record. *)
Definition requests (pr : process) (o : outcome) : list string :=
  drop (length (os_calls pr)) (os_calls (process_after o)).

Definition raised (o : outcome) : bool :=
  match o with
  | Returned _ _ _ => false
  | Raised _ _ _ => true
  end.

End Binding.

Global Arguments TValue {_}.
Global Arguments lua_State {_}.
Global Arguments lua_result {_} A.
Global Arguments process {_}.
Global Arguments outcome {_ _}.

(** ** The operating system, as the specification describes it *)

(** Modelled from the spec: the primitive [try_set_cwd(path) -> success]
    behind [tb_directory_current_set] (tbox's platform layer and the system
    call under it are not part of [chdir.c]).  The specification knows a
    process-wide current working directory and paths that do or do not
    "correspond to an existing directory"; a path must be a non-empty text
    value; a successful change makes the working directory equal to the
    path, a failed one leaves it as it was.  A path is taken here as the
    location it names; the resolution of relative paths against the
    current directory is added further down. *)
Record fs_world := {
  cwd : string;
  directories : gset string
}.

(** [p] names an existing, accessible directory of [w]. *)
Definition is_directory (w : fs_world) (p : string) : bool :=
  bool_decide (p ≠ EmptyString ∧ p ∈ directories w).

Definition try_set_cwd (p : string) (w : fs_world) : bool * fs_world :=
  if is_directory w p
  then (true, {| cwd := p; directories := directories w |})
  else (false, w).

#[export] Instance spec_platform : Platform := {|
  World := fs_world;
  tb_directory_current_set := try_set_cwd
|}.

(** The operation of the specification, [set_current_directory(path:
    string) -> bool]: one request to the operating system, whose answer is
    the result. *)
Definition set_current_directory (path : string) (w : fs_world)
  : bool * fs_world :=
  try_set_cwd path w.

(** ** The same operating system, with relative paths *)

(** A path is absolute when it starts at the root. *)
Definition is_absolute (p : string) : bool := String.prefix "/" p.

(** The location a path stands for when the current directory is [base]. *)
Definition resolve (base p : string) : string :=
  if is_absolute p then p
  else if String.eqb base "/" then String.append "/" p
  else String.append base (String.append "/" p).

(** [p] names an existing, accessible directory for a process of [w]. *)
Definition names_directory (w : fs_world) (p : string) : bool :=
  match p with
  | EmptyString => false
  | _ => is_directory w (resolve (cwd w) p)
  end.

(** Modelled from the spec: the primitive [try_set_cwd] once more, now with
    what the specification says the current working directory is for: it
    is the "process-wide state used by the operating system to resolve
    relative filesystem paths", and a change of it is "observable by every
    subsequent relative-path resolution".  A relative path is looked up
    from the current directory, and a successful change moves the process
    to the location found.  [directories] lists absolute locations; dot
    segments and links are not interpreted. *)
Definition try_set_cwd_relative (p : string) (w : fs_world)
  : bool * fs_world :=
  if names_directory w p
  then (true, {| cwd := resolve (cwd w) p; directories := directories w |})
  else (false, w).

Definition relative_platform : Platform := {|
  World := fs_world;
  tb_directory_current_set := try_set_cwd_relative
|}.

(** ** A concrete interpreter configuration *)

(** [luaconf.h] with an integral [LUA_NUMBER] printed by a plain decimal
    format: the configuration used wherever a statement below is evaluated
    on a concrete call. *)
#[export] Instance integral_conf : LuaConf := {|
  lua_Number := Z;
  lua_number2str := pretty
|}.

(** A host with four directories, started in its root. *)
Definition host : fs_world := {|
  cwd := "/";
  directories := {[ "/"; "/tmp"; "/home"; "/home/ruki" ]}
|}.

Definition boot : process := {| os_world := host; os_calls := [] |}.

(** The same start, for the operating system with relative paths. *)
Definition boot_relative : @process relative_platform :=
  @Build_process relative_platform host [].

(** A path that names nothing on [host]. *)
Definition nowhere : string := "/this/path/does/not/exist".

(** The frame of the call [os.chdir(v)]. *)
Definition call1 `{LuaConf} (v : TValue) : lua_State := {| stack := [v] |}.

(** * Properties *)

(** ** C strings *)

Lemma c_str_nul_free (s : string) : nul_free s = true → c_str s = s.
Proof.
  induction s as [|c s IH]; simpl; [done|].
  destruct (Ascii.eqb c Ascii.zero); simpl; [done|].
  intros Hs. by rewrite IH.
Qed.

Lemma nul_free_c_str (s : string) : nul_free (c_str s) = true.
Proof.
  induction s as [|c s IH]; simpl; [done|].
  destruct (Ascii.eqb c Ascii.zero) eqn:Hc; simpl; [done|].
  by rewrite Hc, IH.
Qed.

Lemma c_str_idemp (s : string) : c_str (c_str s) = c_str s.
Proof. apply c_str_nul_free, nul_free_c_str. Qed.

(** ** Argument extraction *)

Section Extraction.
Context `{Conf : LuaConf}.

Lemma lua_type_of_string (L : lua_State) (idx : Z) (s : string) :
  index2adr L idx = Some (LString s) → lua_type_of L idx = LUA_TSTRING.
Proof. unfold lua_type_of. by intros ->. Qed.

Lemma lua_type_of_number (L : lua_State) (idx : Z) (n : lua_Number) :
  index2adr L idx = Some (LNumber n) → lua_type_of L idx = LUA_TNUMBER.
Proof. unfold lua_type_of. by intros ->. Qed.

(** A string argument is handed over as it is and the stack is left
    alone. *)
Lemma luaL_checkstring_string (L : lua_State) (narg : Z) (s : string) :
  index2adr L narg = Some (LString s) →
  luaL_checkstring L narg = LuaOk (Some (c_str s)) L.
Proof. unfold luaL_checkstring, lua_tolstring. by intros ->. Qed.

(** A number argument is printed, and the slot now holds the string. *)
Lemma luaL_checkstring_number (L : lua_State) (narg : Z) (n : lua_Number) :
  index2adr L narg = Some (LNumber n) →
  luaL_checkstring L narg =
    LuaOk (Some (c_str (lua_number2str n)))
          (set_slot L narg (LString (lua_number2str n))).
Proof. unfold luaL_checkstring, lua_tolstring. by intros ->. Qed.

(** Anything else is an argument error, raised on the untouched stack. *)
Lemma luaL_checkstring_other (L : lua_State) (narg : Z) :
  lua_type_of L narg ≠ LUA_TSTRING →
  lua_type_of L narg ≠ LUA_TNUMBER →
  luaL_checkstring L narg =
    LuaThrow (ArgTypeError narg LUA_TSTRING (lua_type_of L narg)) L.
Proof.
  unfold luaL_checkstring, lua_tolstring, lua_type_of.
  destruct (index2adr L narg) as [[]|]; intros; congruence.
Qed.

(** [luaL_checkstring] never comes back with a null pointer: the check of
    [path] that follows it in [xm_os_chdir] cannot fire. *)
Lemma luaL_checkstring_not_null (L L' : lua_State) (narg : Z) :
  luaL_checkstring L narg ≠ LuaOk None L'.
Proof.
  unfold luaL_checkstring.
  destruct (lua_tolstring L narg) as [[s|] L'']; congruence.
Qed.

(** The pointer handed over is a C string. *)
Lemma luaL_checkstring_nul_free (L L' : lua_State) (narg : Z) (p : string) :
  luaL_checkstring L narg = LuaOk (Some p) L' → nul_free p = true.
Proof.
  unfold luaL_checkstring, lua_tolstring.
  destruct (index2adr L narg) as [[]|]; intros [= <- _];
    apply nul_free_c_str.
Qed.

(** Writing into slot 1 of a frame that has one. *)
Lemma set_slot_first (v v' : TValue) (rest : list TValue) :
  set_slot {| stack := v :: rest |} 1 v' = {| stack := v' :: rest |}.
Proof. reflexivity. Qed.

End Extraction.

(** ** The call, on any platform *)

Section AnyPlatform.
Context `{Conf : LuaConf} `{Plat : Platform}.

Lemma requests_none (pr : process) (o : outcome) :
  process_after o = pr → requests pr o = [].
Proof. intros <-. unfold requests. apply drop_all. Qed.

Lemma requests_more (pr pr' : process) (o : outcome) (ps : list string) :
  process_after o = pr' → os_calls pr' = os_calls pr ++ ps →
  requests pr o = ps.
Proof.
  intros Ho Hps. unfold requests. rewrite Ho, Hps. apply drop_app_length.
Qed.

(** The one path through [xm_os_chdir] that reaches the primitive: the
    primitive is asked once, with the extracted path, its answer is pushed
    and the function returns 1. *)
Lemma xm_os_chdir_path (L L1 : lua_State) (path : string) (pr : process) :
  luaL_checkstring L 1 = LuaOk (Some path) L1 →
  xm_os_chdir (Some L) pr =
    Returned 1
      (Some (lua_pushboolean L1
               (tb_directory_current_set path (os_world pr)).1))
      {| os_world := (tb_directory_current_set path (os_world pr)).2;
         os_calls := os_calls pr ++ [path] |}.
Proof. unfold xm_os_chdir. by intros ->. Qed.

(** The path on which extraction fails: the error leaves the function
    before anything else happens. *)
Lemma xm_os_chdir_throw (L L1 : lua_State) (e : lua_Error) (pr : process) :
  luaL_checkstring L 1 = LuaThrow e L1 →
  xm_os_chdir (Some L) pr = Raised e L1 pr.
Proof. unfold xm_os_chdir. by intros ->. Qed.

(** One pushed boolean is what the script receives. *)
Lemma results_pushboolean (L : lua_State) (b : bool) (pr : process) :
  results (Returned 1 (Some (lua_pushboolean L b)) pr) = Some [LBoolean b].
Proof.
  unfold results, lua_pushboolean; simpl.
  rewrite length_app; simpl.
  replace (length (stack L) + 1 - Z.to_nat 1)%nat with (length (stack L))
    by lia.
  by rewrite drop_app_length.
Qed.

(** Every call ends in one of three ways. *)
Lemma xm_os_chdir_cases (lua : option lua_State) (pr : process) :
  (lua = None ∧ xm_os_chdir lua pr = Returned 0 None pr)
  ∨ (∃ L e, lua = Some L ∧ xm_os_chdir lua pr = Raised e L pr)
  ∨ (∃ L L1 path, lua = Some L
       ∧ luaL_checkstring L 1 = LuaOk (Some path) L1
       ∧ results (xm_os_chdir lua pr) =
           Some [LBoolean (tb_directory_current_set path (os_world pr)).1]).
Proof.
  destruct lua as [L|]; [|by left].
  right.
  destruct (luaL_checkstring L 1) as [[path|] L1|e L1] eqn:Hx.
  - right. exists L, L1, path. repeat split; [done|].
    rewrite (xm_os_chdir_path _ _ _ _ Hx). apply results_pushboolean.
  - by apply luaL_checkstring_not_null in Hx.
  - left. exists L, e. split; [done|].
    rewrite (xm_os_chdir_throw _ _ _ _ Hx).
    revert Hx. unfold luaL_checkstring, lua_tolstring.
    destruct (index2adr L 1) as [[]|]; intros [= <- <-] || intros [=]; done.
Qed.

End AnyPlatform.

(** ** The contract of the binding, on any platform *)

Section Contract.
Context `{Conf : LuaConf} `{Plat : Platform}.

(** C1.  For every path handed to the operation by the argument
    extraction, the script receives exactly the answer of
    [tb_directory_current_set] for that path: one boolean, [true] if and
    only if the primitive reported success.  Nothing else enters the
    result. *)
Theorem xm_os_chdir_result_is_primitive_answer
    (L L1 : lua_State) (path : string) (pr : process) :
  luaL_checkstring L 1 = LuaOk (Some path) L1 →
  results (xm_os_chdir (Some L) pr) =
    Some [LBoolean (tb_directory_current_set path (os_world pr)).1]
  ∧ (results (xm_os_chdir (Some L) pr) = Some [LBoolean true]
     ↔ (tb_directory_current_set path (os_world pr)).1 = true).
Proof.
  intros Hx. rewrite (xm_os_chdir_path _ _ _ _ Hx), results_pushboolean.
  split; [done|]. split; [by intros [= ->] | by intros ->].
Qed.

(** C2.  When the primitive reports failure, the call still returns
    normally: no Lua error is raised, the function returns 1, the only
    thing it leaves for the script is the boolean [false], and the only
    thing that happened to the process is the primitive's own request. *)
Theorem xm_os_chdir_failure_is_false
    (L L1 : lua_State) (path : string) (pr : process) :
  luaL_checkstring L 1 = LuaOk (Some path) L1 →
  (tb_directory_current_set path (os_world pr)).1 = false →
  xm_os_chdir (Some L) pr =
    Returned 1 (Some (lua_pushboolean L1 false))
      {| os_world := (tb_directory_current_set path (os_world pr)).2;
         os_calls := os_calls pr ++ [path] |}
  ∧ raised (xm_os_chdir (Some L) pr) = false
  ∧ results (xm_os_chdir (Some L) pr) = Some [LBoolean false].
Proof.
  intros Hx Hfail. rewrite (xm_os_chdir_path _ _ _ _ Hx), Hfail.
  split; [done|]. split; [done|]. apply results_pushboolean.
Qed.

(** C7.  A call that was handed a path returns 1, and the one value it
    puts on top of the caller's stack is a boolean: the stack grows by
    that single slot, and that slot is all the script receives.  Two
    failing calls therefore look the same to the script, whatever the
    paths and whatever made the primitive fail. *)
Theorem xm_os_chdir_one_boolean
    (L L1 : lua_State) (path : string) (pr : process) :
  luaL_checkstring L 1 = LuaOk (Some path) L1 →
  (∃ (b : bool) (pr' : process),
      xm_os_chdir (Some L) pr =
        Returned 1 (Some {| stack := stack L1 ++ [LBoolean b] |}) pr'
      ∧ results (xm_os_chdir (Some L) pr) = Some [LBoolean b])
  ∧ (∀ (M M1 : lua_State) (path' : string) (qr : process),
        luaL_checkstring M 1 = LuaOk (Some path') M1 →
        (tb_directory_current_set path (os_world pr)).1 = false →
        (tb_directory_current_set path' (os_world qr)).1 = false →
        results (xm_os_chdir (Some M) qr) =
          results (xm_os_chdir (Some L) pr)).
Proof.
  intros Hx. split.
  - eexists _, _. rewrite (xm_os_chdir_path _ _ _ _ Hx).
    split; [reflexivity|]. apply results_pushboolean.
  - intros M M1 path' qr Hy Hp Hq.
    rewrite (xm_os_chdir_path _ _ _ _ Hx), (xm_os_chdir_path _ _ _ _ Hy).
    by rewrite !results_pushboolean, Hp, Hq.
Qed.

(** C8.  With a null [lua_State] pointer the function returns 0 at once:
    there is no stack to read an argument from, nothing is handed to the
    script, and the primitive is not called. *)
Theorem xm_os_chdir_null_state (pr : process) :
  xm_os_chdir None pr = Returned 0 None pr
  ∧ results (xm_os_chdir None pr) = Some []
  ∧ requests pr (xm_os_chdir None pr) = [].
Proof. split; [done|]. split; [done|]. by apply requests_none. Qed.

(** C9.  When the first argument is neither a string nor a number (or is
    missing), [luaL_checkstring] raises its argument error and the
    function is left right there: the primitive is not called, the
    process and the stack are as before, and no result is produced. *)
Theorem xm_os_chdir_bad_argument (L : lua_State) (pr : process) :
  lua_type_of L 1 ≠ LUA_TSTRING →
  lua_type_of L 1 ≠ LUA_TNUMBER →
  xm_os_chdir (Some L) pr =
    Raised (ArgTypeError 1 LUA_TSTRING (lua_type_of L 1)) L pr
  ∧ results (xm_os_chdir (Some L) pr) = None
  ∧ requests pr (xm_os_chdir (Some L) pr) = [].
Proof.
  intros Hs Hn.
  rewrite (xm_os_chdir_throw _ _ _ _ (luaL_checkstring_other _ _ Hs Hn)).
  split; [done|]. split; [done|]. by apply requests_none.
Qed.

(** C10.  A number as first argument is accepted.  It is printed by
    [lua_number2str] and the change of directory is attempted with that
    text (read as a C string): [tb_directory_current_set] is called once
    with it, its answer is the boolean the script receives, and the state
    it produces is the state of the operating system afterwards.  The
    whole outcome, stack included, is the one of the same call made with
    the printed text as a string argument. *)
Theorem xm_os_chdir_number_as_string
    (n : lua_Number) (rest : list TValue) (pr : process) :
  let path := c_str (lua_number2str n) in
  let answer := tb_directory_current_set path (os_world pr) in
  xm_os_chdir (Some {| stack := LNumber n :: rest |}) pr =
    Returned 1
      (Some {| stack :=
                 (LString (lua_number2str n) :: rest) ++ [LBoolean answer.1] |})
      {| os_world := answer.2; os_calls := os_calls pr ++ [path] |}
  ∧ results (xm_os_chdir (Some {| stack := LNumber n :: rest |}) pr) =
    Some [LBoolean answer.1]
  ∧ os_world
      (process_after (xm_os_chdir (Some {| stack := LNumber n :: rest |}) pr))
    = answer.2
  ∧ requests pr (xm_os_chdir (Some {| stack := LNumber n :: rest |}) pr)
    = [path]
  ∧ xm_os_chdir (Some {| stack := LNumber n :: rest |}) pr =
    xm_os_chdir (Some {| stack := LString (lua_number2str n) :: rest |}) pr.
Proof.
  intros path answer. subst path answer.
  set (s := lua_number2str n).
  assert (Hn : luaL_checkstring {| stack := LNumber n :: rest |} 1 =
               LuaOk (Some (c_str s)) {| stack := LString s :: rest |})
    by (by rewrite (luaL_checkstring_number _ _ n)).
  assert (Hs : luaL_checkstring {| stack := LString s :: rest |} 1 =
               LuaOk (Some (c_str s)) {| stack := LString s :: rest |})
    by (by rewrite (luaL_checkstring_string _ _ s)).
  rewrite (xm_os_chdir_path _ _ _ _ Hn), (xm_os_chdir_path _ _ _ _ Hs).
  split; [done|]. split; [apply results_pushboolean|]. split; [done|].
  split; [by eapply requests_more | done].
Qed.

End Contract.

(** ** The call, on the operating system of the specification *)

Lemma is_directory_empty (w : fs_world) : is_directory w EmptyString = false.
Proof. unfold is_directory. apply bool_decide_eq_false. by intros [? _]. Qed.

Lemma is_directory_elem (w : fs_world) (p : string) :
  is_directory w p = true ↔ p ≠ EmptyString ∧ p ∈ directories w.
Proof. unfold is_directory. apply bool_decide_eq_true. Qed.


Lemma try_set_cwd_fail (w : fs_world) (p : string) :
  is_directory w p = false → try_set_cwd p w = (false, w).
Proof. unfold try_set_cwd. by intros ->. Qed.

(** Changing the current directory neither creates nor removes one. *)
Lemma try_set_cwd_directories (w : fs_world) (p : string) :
  directories (try_set_cwd p w).2 = directories w.
Proof. unfold try_set_cwd. by destruct (is_directory w p). Qed.

Section SpecifiedSystem.
Context `{Conf : LuaConf}.

(** The binding refines the operation of the specification: a call that was
    handed [path] makes the request [set_current_directory path] and
    returns its answer. *)
Lemma xm_os_chdir_refines
    (L L1 : lua_State) (path : string) (pr : process) :
  luaL_checkstring L 1 = LuaOk (Some path) L1 →
  results (xm_os_chdir (Some L) pr) =
    Some [LBoolean (set_current_directory path (os_world pr)).1]
  ∧ os_world (process_after (xm_os_chdir (Some L) pr)) =
    (set_current_directory path (os_world pr)).2.
Proof.
  intros Hx. rewrite (xm_os_chdir_path _ _ _ _ Hx), results_pushboolean.
  done.
Qed.

(** C4.  When the path handed to the call does not name an existing,
    accessible directory, the script receives [false] and the process is
    where it was: the current working directory (indeed the whole state
    of the operating system) after the call is the one before it. *)
Theorem xm_os_chdir_missing_directory
    (L L1 : lua_State) (p : string) (pr : process) :
  luaL_checkstring L 1 = LuaOk (Some p) L1 →
  is_directory (os_world pr) p = false →
  results (xm_os_chdir (Some L) pr) = Some [LBoolean false]
  ∧ cwd (os_world (process_after (xm_os_chdir (Some L) pr))) =
    cwd (os_world pr)
  ∧ os_world (process_after (xm_os_chdir (Some L) pr)) = os_world pr.
Proof.
  intros Hx Hp. destruct (xm_os_chdir_refines _ _ _ pr Hx) as [-> ->].
  unfold set_current_directory. by rewrite (try_set_cwd_fail _ _ Hp).
Qed.


End SpecifiedSystem.

(** ** Two calls in a row, with relative paths resolved *)

Lemma names_directory_absolute (w : fs_world) (p : string) :
  is_absolute p = true → names_directory w p = is_directory w p.
Proof.
  destruct p as [|c p]; [done|]. intros Hp.
  unfold names_directory, resolve. by rewrite Hp.
Qed.

(** An absolute path is entered as it is written. *)
Lemma try_set_cwd_relative_absolute (w : fs_world) (p : string) :
  is_absolute p = true → names_directory w p = true →
  try_set_cwd_relative p w =
    (true, {| cwd := p; directories := directories w |}).
Proof.
  intros Hp Hd. unfold try_set_cwd_relative. rewrite Hd.
  unfold resolve. by rewrite Hp.
Qed.

(** Where the process is does not matter for an absolute path. *)
Lemma names_directory_moved (w : fs_world) (c p : string) :
  is_absolute p = true →
  names_directory {| cwd := c; directories := directories w |} p =
    names_directory w p.
Proof. intros Hp. by rewrite !names_directory_absolute. Qed.

Section RelativePaths.
Context `{Conf : LuaConf}.

(** C6, as amended.  Two calls in succession with the same absolute path of
    an existing directory: each of them hands [true] to the script, and
    the current working directory is that path after the first call and
    after the second. *)
Theorem xm_os_chdir_twice_absolute
    (L L1 M M1 : lua_State) (p : string) (pr : @process relative_platform) :
  luaL_checkstring L 1 = LuaOk (Some p) L1 →
  luaL_checkstring M 1 = LuaOk (Some p) M1 →
  is_absolute p = true →
  names_directory (os_world pr) p = true →
  let first := xm_os_chdir (Plat := relative_platform) (Some L) pr in
  let second :=
    xm_os_chdir (Plat := relative_platform) (Some M) (process_after first) in
  results first = Some [LBoolean true]
  ∧ cwd (os_world (process_after first)) = p
  ∧ results second = Some [LBoolean true]
  ∧ cwd (os_world (process_after second)) = p.
Proof.
  intros Hx Hy Hp Hd first second. subst second first.
  rewrite (xm_os_chdir_path _ _ _ _ Hx). cbn [process_after].
  rewrite (xm_os_chdir_path _ _ _ _ Hy), !results_pushboolean.
  cbn [process_after os_world tb_directory_current_set relative_platform].
  rewrite (try_set_cwd_relative_absolute _ _ Hp Hd). cbn [fst snd].
  rewrite try_set_cwd_relative_absolute;
    [done | done | by rewrite names_directory_moved].
Qed.

End RelativePaths.

(** C6, as it was stated, fails.  On [host] the relative path [tmp] names
    the existing directory [/tmp]; the first [os.chdir("tmp")] succeeds
    and moves the process there, and the second one, looked up from
    [/tmp], finds nothing. *)
Lemma relative_path_second_call_fails :
  names_directory host "tmp" = true
  ∧ results
      (xm_os_chdir (Plat := relative_platform)
         (Some (call1 (LString "tmp"))) boot_relative) =
    Some [LBoolean true]
  ∧ results
      (xm_os_chdir (Plat := relative_platform)
         (Some (call1 (LString "tmp")))
         (process_after
            (xm_os_chdir (Plat := relative_platform)
               (Some (call1 (LString "tmp"))) boot_relative))) =
    Some [LBoolean false].
Proof. by vm_compute. Qed.

(** C3, as amended.  An empty path is not held back: whatever the platform,
    a call whose first argument is the empty string makes exactly one
    request to the primitive, with the empty path, and what the script
    receives and what becomes of the operating system are the primitive's
    doing.  The call does not crash: on the operating system of the
    specification nothing is raised, the script receives [false], and the
    process is where it was. *)
Theorem xm_os_chdir_empty_path :
  (∀ (Conf : LuaConf) (Plat : Platform)
     (rest : list TValue) (pr : process),
      let o :=
        xm_os_chdir (Some {| stack := LString EmptyString :: rest |}) pr in
      requests pr o = [EmptyString]
      ∧ results o =
          Some [LBoolean
                  (tb_directory_current_set EmptyString (os_world pr)).1]
      ∧ os_world (process_after o) =
          (tb_directory_current_set EmptyString (os_world pr)).2)
  ∧ (∀ (Conf : LuaConf) (rest : list TValue) (pr : @process spec_platform),
      let o :=
        xm_os_chdir (Some {| stack := LString EmptyString :: rest |}) pr in
      raised o = false
      ∧ results o = Some [LBoolean false]
      ∧ os_world (process_after o) = os_world pr).
Proof.
  split.
  - intros Conf Plat rest pr o.
    assert (Hx : luaL_checkstring
                   {| stack := LString EmptyString :: rest |} 1 =
                 LuaOk (Some EmptyString)
                   {| stack := LString EmptyString :: rest |}) by done.
    subst o. rewrite (xm_os_chdir_path _ _ _ _ Hx), results_pushboolean.
    split; [by eapply requests_more | done].
  - intros Conf rest pr o.
    assert (Hx : luaL_checkstring
                   {| stack := LString EmptyString :: rest |} 1 =
                 LuaOk (Some EmptyString)
                   {| stack := LString EmptyString :: rest |}) by done.
    assert (Hf : @tb_directory_current_set spec_platform EmptyString
                   (os_world pr) = (false, os_world pr))
      by apply (try_set_cwd_fail _ _ (is_directory_empty _)).
    subst o. rewrite (xm_os_chdir_path _ _ _ _ Hx), results_pushboolean.
    by rewrite Hf.
Qed.

(** C3, as it was stated, fails: the script calls [os.chdir] with the empty
    string on [host], and the primitive is asked to change to the empty
    path. *)
Lemma empty_path_reaches_primitive :
  requests boot (xm_os_chdir (Some (call1 (LString EmptyString))) boot)
    = [EmptyString]
  ∧ requests boot (xm_os_chdir (Some (call1 (LString EmptyString))) boot) ≠ [].
Proof. split; [by vm_compute | by vm_compute]. Qed.

(** ** The statements above, on concrete calls *)

(** [os.chdir("/tmp")] on [host]. *)
Lemma xm_os_chdir_result_is_primitive_answer_witness :
  luaL_checkstring (call1 (LString "/tmp")) 1 =
    LuaOk (Some "/tmp") (call1 (LString "/tmp"))
  ∧ results (xm_os_chdir (Some (call1 (LString "/tmp"))) boot) =
    Some [LBoolean true].
Proof.
  split; [reflexivity|].
  apply (xm_os_chdir_result_is_primitive_answer
           (call1 (LString "/tmp")) (call1 (LString "/tmp")) "/tmp" boot);
    [reflexivity | vm_compute; reflexivity].
Defined.

(** [os.chdir("/this/path/does/not/exist")] on [host]. *)
Lemma xm_os_chdir_failure_is_false_witness :
  luaL_checkstring (call1 (LString nowhere)) 1 =
    LuaOk (Some nowhere) (call1 (LString nowhere))
  ∧ (tb_directory_current_set nowhere (os_world boot)).1 = false
  ∧ raised (xm_os_chdir (Some (call1 (LString nowhere))) boot) = false
  ∧ results (xm_os_chdir (Some (call1 (LString nowhere))) boot) =
    Some [LBoolean false].
Proof.
  split; [reflexivity|]. split; [vm_compute; reflexivity|].
  apply (xm_os_chdir_failure_is_false
           (call1 (LString nowhere)) (call1 (LString nowhere)) nowhere boot);
    [reflexivity | vm_compute; reflexivity].
Defined.

Lemma xm_os_chdir_one_boolean_witness :
  luaL_checkstring (call1 (LString "/home/ruki")) 1 =
    LuaOk (Some "/home/ruki") (call1 (LString "/home/ruki"))
  ∧ ∃ (b : bool) (pr' : process),
      xm_os_chdir (Some (call1 (LString "/home/ruki"))) boot =
        Returned 1 (Some {| stack := [LString "/home/ruki"; LBoolean b] |}) pr'
      ∧ results (xm_os_chdir (Some (call1 (LString "/home/ruki"))) boot) =
        Some [LBoolean b].
Proof.
  split; [reflexivity|].
  apply (xm_os_chdir_one_boolean
           (call1 (LString "/home/ruki")) (call1 (LString "/home/ruki"))
           "/home/ruki" boot).
  reflexivity.
Defined.

(** [os.chdir(nil)] on [host]. *)
Lemma xm_os_chdir_bad_argument_witness :
  lua_type_of (call1 LNil) 1 ≠ LUA_TSTRING
  ∧ lua_type_of (call1 LNil) 1 ≠ LUA_TNUMBER
  ∧ xm_os_chdir (Some (call1 LNil)) boot =
    Raised (ArgTypeError 1 LUA_TSTRING LUA_TNIL) (call1 LNil) boot.
Proof.
  split; [discriminate|]. split; [discriminate|].
  apply (xm_os_chdir_bad_argument (call1 LNil) boot); discriminate.
Defined.

Lemma xm_os_chdir_missing_directory_witness :
  luaL_checkstring (call1 (LString nowhere)) 1 =
    LuaOk (Some nowhere) (call1 (LString nowhere))
  ∧ is_directory (os_world boot) nowhere = false
  ∧ results (xm_os_chdir (Some (call1 (LString nowhere))) boot) =
    Some [LBoolean false]
  ∧ cwd (os_world (process_after
                     (xm_os_chdir (Some (call1 (LString nowhere))) boot))) = "/".
Proof.
  split; [reflexivity|]. split; [vm_compute; reflexivity|].
  split.
  - apply (xm_os_chdir_missing_directory
             (call1 (LString nowhere)) (call1 (LString nowhere)) nowhere boot);
      [reflexivity | vm_compute; reflexivity].
  - apply (xm_os_chdir_missing_directory
             (call1 (LString nowhere)) (call1 (LString nowhere)) nowhere boot);
      [reflexivity | vm_compute; reflexivity].
Defined.


(** [os.chdir("/tmp")] twice; the second call has a frame of its own. *)
Lemma xm_os_chdir_twice_absolute_witness :
  luaL_checkstring (call1 (LString "/tmp")) 1 =
    LuaOk (Some "/tmp") (call1 (LString "/tmp"))
  ∧ is_absolute "/tmp" = true
  ∧ names_directory (os_world boot_relative) "/tmp" = true
  ∧ results
      (xm_os_chdir (Plat := relative_platform) (Some (call1 (LString "/tmp")))
         (process_after
            (xm_os_chdir (Plat := relative_platform)
               (Some (call1 (LString "/tmp"))) boot_relative))) =
    Some [LBoolean true]
  ∧ cwd (os_world
           (process_after
              (xm_os_chdir (Plat := relative_platform)
                 (Some (call1 (LString "/tmp")))
                 (process_after
                    (xm_os_chdir (Plat := relative_platform)
                       (Some (call1 (LString "/tmp"))) boot_relative))))) =
    "/tmp".
Proof.
  split; [reflexivity|]. split; [reflexivity|].
  split; [vm_compute; reflexivity|].
  apply (xm_os_chdir_twice_absolute
           (call1 (LString "/tmp")) (call1 (LString "/tmp"))
           (call1 (LString "/tmp")) (call1 (LString "/tmp"))
           "/tmp" boot_relative);
    [reflexivity | reflexivity | reflexivity | vm_compute; reflexivity].
Defined.

(** ** Further calls, evaluated *)

(** [os.chdir(42)]: the slot is rewritten to the text, and the request is
    made with it. *)
Example os_chdir_number :
  xm_os_chdir (Some (call1 (LNumber 42))) boot =
    Returned 1 (Some {| stack := [LString "42"; LBoolean false] |})
      {| os_world := host; os_calls := ["42"] |}.
Proof. reflexivity. Qed.

(** [os.chdir()] without an argument. *)
Example os_chdir_no_argument :
  xm_os_chdir (Some {| stack := [] |}) boot =
    Raised (ArgTypeError 1 LUA_TSTRING LUA_TNONE) {| stack := [] |} boot.
Proof. reflexivity. Qed.

(** [os.chdir(true)], with a second argument that is a fine path: only the
    first slot is looked at. *)
Example os_chdir_boolean :
  xm_os_chdir (Some {| stack := [LBoolean true; LString "/tmp"] |}) boot =
    Raised (ArgTypeError 1 LUA_TSTRING LUA_TBOOLEAN)
      {| stack := [LBoolean true; LString "/tmp"] |} boot.
Proof. reflexivity. Qed.

(** A Lua string with a NUL byte inside: the primitive is asked for the
    part in front of it. *)
Example os_chdir_embedded_nul :
  let s := String.append "/tmp" (String Ascii.zero "/nowhere") in
  requests boot (xm_os_chdir (Some (call1 (LString s))) boot) = ["/tmp"]
  ∧ results (xm_os_chdir (Some (call1 (LString s))) boot) =
    Some [LBoolean true].
Proof. by vm_compute. Qed.


(** * More about [xm_os_chdir] *)

(** Appending a NUL byte and anything after it does not change what a C
    function reads. *)
Lemma c_str_app_nul (s t : string) :
  c_str (String.append s (String Ascii.zero t)) = c_str s.
Proof.
  induction s as [|c s IH]; simpl; [done|].
  destruct (Ascii.eqb c Ascii.zero); [done|]. by rewrite IH.
Qed.

Section Frame.
Context `{Conf : LuaConf} `{Plat : Platform}.

(** The first slot of a frame that has one. *)
Lemma index2adr_first (v : TValue) (rest : list TValue) :
  index2adr {| stack := v :: rest |} 1 = Some v.
Proof. reflexivity. Qed.


(** What extraction does to a frame, by the value in its first slot. *)
Lemma luaL_checkstring_first (v : TValue) (rest : list TValue) :
  match v with
  | LString s =>
      luaL_checkstring {| stack := v :: rest |} 1 =
        LuaOk (Some (c_str s)) {| stack := v :: rest |}
  | LNumber n =>
      luaL_checkstring {| stack := v :: rest |} 1 =
        LuaOk (Some (c_str (lua_number2str n)))
          {| stack := LString (lua_number2str n) :: rest |}
  | _ =>
      ∃ t, luaL_checkstring {| stack := v :: rest |} 1 =
             LuaThrow (ArgTypeError 1 LUA_TSTRING t) {| stack := v :: rest |}
  end.
Proof. destruct v; try done; by eexists. Qed.

(** X1.  Only the first argument counts.  Whatever else the caller put in
    the frame, the script receives the same values, the same error is or is
    not raised, and the process ends up the same. *)
Theorem xm_os_chdir_ignores_extra_arguments
    (v : TValue) (rest rest' : list TValue) (pr : process) :
  results (xm_os_chdir (Some {| stack := v :: rest |}) pr) =
    results (xm_os_chdir (Some {| stack := v :: rest' |}) pr)
  ∧ raised (xm_os_chdir (Some {| stack := v :: rest |}) pr) =
    raised (xm_os_chdir (Some {| stack := v :: rest' |}) pr)
  ∧ process_after (xm_os_chdir (Some {| stack := v :: rest |}) pr) =
    process_after (xm_os_chdir (Some {| stack := v :: rest' |}) pr).
Proof.
  pose proof (luaL_checkstring_first v rest) as Hr.
  pose proof (luaL_checkstring_first v rest') as Hr'.
  destruct v; simpl in Hr, Hr';
    lazymatch type of Hr with
    | ex _ =>
        destruct Hr as [t Hr]; destruct Hr' as [t' Hr'];
        by rewrite (xm_os_chdir_throw _ _ _ _ Hr),
                   (xm_os_chdir_throw _ _ _ _ Hr')
    | _ =>
        rewrite (xm_os_chdir_path _ _ _ _ Hr), (xm_os_chdir_path _ _ _ _ Hr');
        by rewrite !results_pushboolean
    end.
Qed.

(** X2.  A call asks the primitive at most once, and never rewrites the
    past: the record of requests only grows, by nothing or by one path.
    When nothing was asked the operating system is exactly as before; when
    a path was asked, the new state is the one the primitive produced for
    that path, and the path is a C string. *)
Theorem xm_os_chdir_single_request
    (lua : option lua_State) (pr : process) :
  let o := xm_os_chdir lua pr in
  os_calls (process_after o) = os_calls pr ++ requests pr o
  ∧ ((requests pr o = [] ∧ process_after o = pr)
     ∨ (∃ path : string,
          requests pr o = [path]
          ∧ nul_free path = true
          ∧ os_world (process_after o) =
              (tb_directory_current_set path (os_world pr)).2)).
Proof.
  intros o. subst o. destruct lua as [L|].
  - destruct (luaL_checkstring L 1) as [[path|] L1|e L1] eqn:Hx.
    + rewrite (xm_os_chdir_path _ _ _ _ Hx).
      assert (Hreq : requests pr
                (Returned 1
                   (Some (lua_pushboolean L1
                            (tb_directory_current_set path (os_world pr)).1))
                   {| os_world :=
                        (tb_directory_current_set path (os_world pr)).2;
                      os_calls := os_calls pr ++ [path] |}) = [path])
        by (by eapply requests_more).
      rewrite Hreq. split; [done|]. right. exists path.
      split; [done|]. split; [|done].
      by eapply luaL_checkstring_nul_free.
    + by apply luaL_checkstring_not_null in Hx.
    + rewrite (xm_os_chdir_throw _ _ _ _ Hx).
      rewrite (requests_none pr (Raised e L1 pr) eq_refl).
      split; [by rewrite app_nil_r | by left].
  - simpl. rewrite (requests_none pr (Returned 0 None pr) eq_refl).
    split; [by rewrite app_nil_r | by left].
Qed.

(** X3.  With a state that is not null the function never returns 0: the
    null check of [path] on line 47 cannot fire, because the extraction
    either hands over a string or does not come back.  Such a call returns
    1 or is unwound by the argument error. *)
Theorem xm_os_chdir_never_returns_zero (L : lua_State) (pr : process) :
  (∀ (lua' : option lua_State) (pr' : process),
      xm_os_chdir (Some L) pr ≠ Returned 0 lua' pr')
  ∧ ((∃ (L' : lua_State) (pr' : process),
         xm_os_chdir (Some L) pr = Returned 1 (Some L') pr')
     ∨ (∃ e : lua_Error, xm_os_chdir (Some L) pr = Raised e L pr)).
Proof.
  destruct (luaL_checkstring L 1) as [[path|] L1|e L1] eqn:Hx.
  - rewrite (xm_os_chdir_path _ _ _ _ Hx). split; [done|].
    left. by eexists _, _.
  - by apply luaL_checkstring_not_null in Hx.
  - rewrite (xm_os_chdir_throw _ _ _ _ Hx). split; [done|].
    right. exists e. revert Hx. unfold luaL_checkstring, lua_tolstring.
    by destruct (index2adr L 1) as [[]|]; intros [= <- <-] || intros [=].
Qed.

(** X4.  A string without NUL bytes reaches the primitive exactly as the
    script wrote it: one request, with that very text, and the answer for
    that text is what the script receives. *)
Theorem xm_os_chdir_path_verbatim
    (s : string) (rest : list TValue) (pr : process) :
  nul_free s = true →
  requests pr (xm_os_chdir (Some {| stack := LString s :: rest |}) pr) = [s]
  ∧ results (xm_os_chdir (Some {| stack := LString s :: rest |}) pr) =
    Some [LBoolean (tb_directory_current_set s (os_world pr)).1].
Proof.
  intros Hs.
  pose proof (luaL_checkstring_first (LString s) rest) as Hx; simpl in Hx.
  rewrite (c_str_nul_free _ Hs) in Hx.
  rewrite (xm_os_chdir_path _ _ _ _ Hx), results_pushboolean.
  split; [by eapply requests_more | done].
Qed.

(** X5.  Whatever follows a NUL byte in the argument is ignored: the call
    with [s], a NUL byte and [t] asks the primitive the same thing, hands
    the same result to the script and leaves the same process as the call
    with [s] alone. *)
Theorem xm_os_chdir_cut_at_nul
    (s t : string) (rest : list TValue) (pr : process) :
  let cut := String.append s (String Ascii.zero t) in
  requests pr (xm_os_chdir (Some {| stack := LString cut :: rest |}) pr) =
    requests pr (xm_os_chdir (Some {| stack := LString s :: rest |}) pr)
  ∧ results (xm_os_chdir (Some {| stack := LString cut :: rest |}) pr) =
    results (xm_os_chdir (Some {| stack := LString s :: rest |}) pr)
  ∧ process_after (xm_os_chdir (Some {| stack := LString cut :: rest |}) pr) =
    process_after (xm_os_chdir (Some {| stack := LString s :: rest |}) pr).
Proof.
  intros cut.
  pose proof (luaL_checkstring_first (LString cut) rest) as Hc.
  pose proof (luaL_checkstring_first (LString s) rest) as Hs.
  simpl in Hc, Hs. unfold cut in Hc at 2. rewrite c_str_app_nul in Hc.
  rewrite (xm_os_chdir_path _ _ _ _ Hc), (xm_os_chdir_path _ _ _ _ Hs).
  by rewrite !results_pushboolean.
Qed.


End Frame.

(** [os.chdir("/home/ruki")] on [host]: the text goes through untouched. *)
Lemma xm_os_chdir_path_verbatim_witness :
  nul_free "/home/ruki" = true
  ∧ requests boot (xm_os_chdir (Some (call1 (LString "/home/ruki"))) boot) =
    ["/home/ruki"].
Proof.
  split; [reflexivity|].
  apply (xm_os_chdir_path_verbatim "/home/ruki" [] boot). reflexivity.
Defined.
